(** * Boost.Align: the [aligned_alloc.hpp] dispatch header

    The header [include/boost/align/aligned_alloc.hpp] selects, with
    preprocessor conditionals, one back-end header that provides
    [detail::aligned_alloc] and [detail::aligned_free], and re-exports the
    two functions into [boost::alignment] and [boost].

    The development embeds the header as a function on the state of a
    translation unit (macro definitions, headers included so far, names
    declared so far), and the allocation contract of the back-ends as
    functions on a heap. *)

From stdpp Require Import gmap strings list fin_maps.

Local Open Scope Z_scope.

(** ** Preprocessor model *)

Module Preprocessor.

(** A macro environment maps the name of every defined object-like macro to
    the integer its replacement list evaluates to inside [#if].  The macros
    the header compares numerically are integer constants whenever the
    platform headers define them. *)
Abbreviation macro_env := (gmap string Z).

(** [defined(X)] *)
Definition defined (e : macro_env) (x : string) : bool :=
  bool_decide (is_Some (e !! x)).

(** The value of the identifier [X] inside an [#if] expression: its
    replacement when it is a macro, and [0] when it is not defined. *)
Definition pp_value (e : macro_env) (x : string) : Z :=
  default 0 (e !! x).

(** [#if c1 g1 #elif c2 g2 ... #else g #endif]: the group of the first
    condition that holds is kept, every other group is skipped. *)
Fixpoint pp_cond {A : Type} (groups : list (bool * list A)) (els : list A)
  : list A :=
  match groups with
  | [] => els
  | (c, body) :: rest => if c then body else pp_cond rest els
  end.

End Preprocessor.

Import Preprocessor.

(** ** Back-end selection (lines 22 to 38 of the header) *)

Module Dispatch.

Local Open Scope string_scope.

(** The groups of the [#if]/[#elif] chain, in source order, each with the
    header it includes. *)
Definition backend_groups (e : macro_env) : list (bool * list string) :=
  [ (defined e "BOOST_MSVC",
      ["boost/align/detail/aligned_alloc_msvc.hpp"]);
    (defined e "__MINGW32__" && (pp_value e "__MSVCRT_VERSION__" >=? 0x0700),
      ["boost/align/detail/aligned_alloc_msvc.hpp"]);
    (pp_value e "MAC_OS_X_VERSION_MIN_REQUIRED" >=? 1060,
      ["boost/align/detail/aligned_alloc_posix.hpp"]);
    (defined e "__ANDROID__",
      ["boost/align/detail/aligned_alloc_android.hpp"]);
    (defined e "__SunOS_5_11" || defined e "__SunOS_5_12",
      ["boost/align/detail/aligned_alloc_posix.hpp"]);
    (defined e "sun" || defined e "__sun",
      ["boost/align/detail/aligned_alloc_sunos.hpp"]);
    ((pp_value e "_POSIX_C_SOURCE" >=? 200112)
       || (pp_value e "_XOPEN_SOURCE" >=? 600),
      ["boost/align/detail/aligned_alloc_posix.hpp"]) ].

(** The group of the trailing [#else]. *)
Definition backend_else : list string :=
  ["boost/align/detail/aligned_alloc.hpp"].

(** The headers the chain includes under the macro environment [e]. *)
Definition backend_chain (e : macro_env) : list string :=
  pp_cond (backend_groups e) backend_else.

(** The chain as a MinGW build without the newer C runtime sees it: what is
    left after the two Windows groups. *)
Definition later_chain (e : macro_env) : list string :=
  pp_cond (drop 2 (backend_groups e)) backend_else.

(** *** The priority order as the specification words it *)

(** The five back-end implementations. *)
Inductive backend : Set :=
  | Msvc      (* compiler intrinsic of the Windows family *)
  | Posix     (* the POSIX aligned-allocation call *)
  | Android   (* dedicated path of the mobile OS *)
  | Sunos     (* older-style path of legacy SunOS *)
  | Manual.   (* portable fallback *)

#[global] Instance backend_eq_dec : EqDecision backend.
Proof. solve_decision. Defined.

(** The header that implements a back-end. *)
Definition detail_header (b : backend) : string :=
  match b with
  | Msvc => "boost/align/detail/aligned_alloc_msvc.hpp"
  | Posix => "boost/align/detail/aligned_alloc_posix.hpp"
  | Android => "boost/align/detail/aligned_alloc_android.hpp"
  | Sunos => "boost/align/detail/aligned_alloc_sunos.hpp"
  | Manual => "boost/align/detail/aligned_alloc.hpp"
  end.

(** 1. Windows-family compilers. *)
Definition windows_family (e : macro_env) : bool :=
  defined e "BOOST_MSVC"
  || (defined e "__MINGW32__" && (pp_value e "__MSVCRT_VERSION__" >=? 0x0700)).

(** 2. Apple platforms at or above the minimum OS version. *)
Definition apple_min_os (e : macro_env) : bool :=
  pp_value e "MAC_OS_X_VERSION_MIN_REQUIRED" >=? 1060.

(** 3. Android. *)
Definition android (e : macro_env) : bool := defined e "__ANDROID__".

(** 4. SunOS 5.11 and 5.12. *)
Definition sunos_recent (e : macro_env) : bool :=
  defined e "__SunOS_5_11" || defined e "__SunOS_5_12".

(** 5. Legacy SunOS. *)
Definition sunos_legacy (e : macro_env) : bool :=
  defined e "sun" || defined e "__sun".

(** 6. The standard feature macros advertise the POSIX call. *)
Definition posix_advertised (e : macro_env) : bool :=
  (pp_value e "_POSIX_C_SOURCE" >=? 200112)
  || (pp_value e "_XOPEN_SOURCE" >=? 600).

(** The six conditional entries of the priority order; the seventh entry,
    the portable fallback, is what is left when none of them holds. *)
Definition priority_order : list ((macro_env → bool) * backend) :=
  [ (windows_family, Msvc);
    (apple_min_os, Posix);
    (android, Android);
    (sunos_recent, Posix);
    (sunos_legacy, Sunos);
    (posix_advertised, Posix) ].

(** First match wins: [first_match e rules b] holds when [b] is the back-end
    of the first rule whose condition holds in [e], or the fallback when no
    rule is left. *)
Inductive first_match (e : macro_env)
  : list ((macro_env → bool) * backend) → backend → Prop :=
  | fm_fallback : first_match e [] Manual
  | fm_here c b rest :
      c e = true → first_match e ((c, b) :: rest) b
  | fm_next c b rest b' :
      c e = false → first_match e rest b' →
      first_match e ((c, b) :: rest) b'.

(** The same, as a function. *)
Fixpoint select (rules : list ((macro_env → bool) * backend)) (e : macro_env)
  : backend :=
  match rules with
  | [] => Manual
  | (c, b) :: rest => if c e then b else select rest e
  end.

(** A MinGW build: the compiler identifies itself as MinGW, and Boost.Config
    has not identified the compiler as Microsoft's. *)
Definition mingw_build (e : macro_env) : Prop :=
  defined e "__MINGW32__" = true ∧ defined e "BOOST_MSVC" = false.

End Dispatch.

Import Dispatch.

(** ** The header as a function on the translation unit *)

Module Header.

Local Open Scope string_scope.

(** The two operations a back-end provides. *)
Inductive operation : Set := AlignedAlloc | AlignedFree.

(** A declared function: operation [op] as back-end [b] defines it. *)
Inductive entity : Set := Fn (b : backend) (op : operation).

(** The state of the translation unit while it is preprocessed and its
    declarations are read: the macros defined, the headers this header has
    included (in order), and the functions [aligned_alloc] and [aligned_free]
    declared so far, by qualified name. *)
Record tu : Type := {
  macros : gmap string Z;
  included : list string;
  symbols : gmap (list string) entity
}.

Definition guard : string := "BOOST_ALIGN_ALIGNED_ALLOC_HPP".

(** [#define X] with an empty replacement list.  No [#if] of the header reads
    the replacement of such a macro; the environment records it with the
    value [1], as a definition on the command line does. *)
Definition define (x : string) (s : tu) : tu :=
  {| macros := <[x := 1]> (macros s);
     included := included s;
     symbols := symbols s |}.

Definition backends : list backend := [Msvc; Posix; Android; Sunos; Manual].

(** The back-end a header path implements, if it is one of the five. *)
Definition backend_of_header (h : string) : option backend :=
  head (filter (λ b, detail_header b = h) backends).

(** Modelled from the spec: the five back-end headers under
    [boost/align/detail/] are missing from the sources; by the spec each is
    one platform-specific implementation of the allocate/free pair, and the
    using-declarations of lines 42 and 43 name the pair
    [detail::aligned_alloc] and [detail::aligned_free] from inside
    [boost::alignment]. *)
Definition declare_backend (b : backend) (syms : gmap (list string) entity)
  : gmap (list string) entity :=
  <[ ["boost"; "alignment"; "detail"; "aligned_free"] := Fn b AlignedFree ]>
  (<[ ["boost"; "alignment"; "detail"; "aligned_alloc"] := Fn b AlignedAlloc ]>
     syms).

(** [using target;] written inside namespace [scope]: the name [target]
    denotes is looked up, and its last component becomes a name of [scope]
    for the same entity.  A target that is not declared is an error. *)
Definition using_decl (scope target : list string) (s : tu) : option tu :=
  ent ← symbols s !! (scope ++ target)%list;
  name ← last target;
  Some {| macros := macros s;
          included := included s;
          symbols := <[ (scope ++ [name])%list := ent ]> (symbols s) |}.

Section WithExternalHeaders.

(** What including a header does to the macro environment.  Every header
    this one includes lies outside the sources at hand (Boost.Config, the
    system headers, the back-end headers), so the effect is a parameter. *)
Variable ext : string → gmap string Z → gmap string Z.

(** [#include <h>] *)
Definition include (h : string) (s : tu) : tu :=
  {| macros := ext h (macros s);
     included := (included s ++ [h])%list;
     symbols := match backend_of_header h with
                | Some b => declare_backend b (symbols s)
                | None => symbols s
                end |}.

(** Lines 12 to 20: Boost.Config, then [unistd.h] and
    [AvailabilityMacros.h] where the platform has them. *)
Definition preamble (s : tu) : tu :=
  let s := include "boost/config.hpp" s in
  let s := if defined (macros s) "BOOST_HAS_UNISTD_H"
           then include "unistd.h" s else s in
  if defined (macros s) "__APPLE__" || defined (macros s) "__APPLE_CC__"
     || defined (macros s) "macintosh"
  then include "AvailabilityMacros.h" s else s.

(** Lines 22 to 38: the headers the chain selects are included. *)
Definition include_backend (s : tu) : tu :=
  foldl (λ s h, include h s) s (backend_chain (macros s)).

(** Lines 40 to 48: the four using-declarations. *)
Definition reexport (s : tu) : option tu :=
  s ← using_decl ["boost"; "alignment"] ["detail"; "aligned_alloc"] s;
  s ← using_decl ["boost"; "alignment"] ["detail"; "aligned_free"] s;
  s ← using_decl ["boost"] ["alignment"; "aligned_alloc"] s;
  using_decl ["boost"] ["alignment"; "aligned_free"] s.

(** The whole header, between [#ifndef] on line 9 and [#endif] on line 50. *)
Definition aligned_alloc_hpp (s : tu) : option tu :=
  if defined (macros s) guard then Some s
  else reexport (include_backend (preamble (define guard s))).

(** The header included [n] times in a row. *)
Fixpoint include_times (n : nat) (s : tu) : option tu :=
  match n with
  | O => Some s
  | S n => s ← aligned_alloc_hpp s; include_times n s
  end.

(** The macro environment the selection chain is evaluated in, when the
    header is read from state [s]. *)
Definition chain_env (s : tu) : gmap string Z :=
  macros (preamble (define guard s)).

End WithExternalHeaders.

(** The headers included after the first [n]. *)
Definition included_since (n : nat) (s : tu) : list string :=
  drop n (included s).

Definition is_backend_header (h : string) : bool :=
  bool_decide (is_Some (backend_of_header h)).

End Header.

Import Header.

(** ** The allocation contract of the back-ends *)

Module Allocator.

(** Modelled from the spec: the heap the two operations act on; the
    back-end headers that define the operations are missing from the
    sources.  [live] maps the base address of every block the platform
    allocator has handed out and not taken back to its length in bytes,
    [cells] holds the pointer-sized words the fallback writes for its
    bookkeeping, and [requests] counts the allocation requests made to the
    platform. *)
Record heap : Type := {
  live : gmap Z Z;
  cells : gmap Z Z;
  requests : nat
}.

(** Modelled from the spec: the platform mechanisms the missing back-end
    headers consume (section 6, external collaborators): the size of a
    pointer, the ordinary allocator the fallback builds on, and the native
    aligned-allocation primitive each other back-end calls.  An allocator
    picks the base address of a new block from the blocks that are live, or
    fails with [None]. *)
Record platform : Type := {
  ptr_size : Z;
  os_malloc : gmap Z Z → Z → option Z;
  os_aligned : backend → gmap Z Z → Z → Z → option Z
}.

(** Modelled from the spec: the result of an operation of the missing
    back-ends, which either returns normally, with a value and the new
    heap, or is a catastrophic fault. *)
Inductive outcome (A : Type) : Type :=
  | Fault
  | Done (r : A) (h : heap).
Arguments Fault {A}.
Arguments Done {A} r h.

(** Modelled from the spec: the null/invalid marker of the missing
    back-ends. *)
Definition null : Z := 0.

(** Modelled from the spec: [n] bytes starting at [a] are safe to read and
    write (section 3) when they lie inside a live block; the operations
    that touch memory are in the missing back-end headers. *)
Definition usable (h : heap) (a n : Z) : Prop :=
  map_Exists (λ base len, base ≤ a ∧ a + n ≤ base + len) (live h).

#[global] Instance usable_dec h a n : Decision (usable h a n).
Proof. unfold usable. apply _. Defined.

(** Modelled from the spec: the smallest multiple of [al] that is not below
    [x], the manual pointer adjustment of the missing fallback header. *)
Definition align_up (x al : Z) : Z := x + (al - x mod al) mod al.

Section OnPlatform.

Variable P : platform.

(** Modelled from the spec: the largest value of the unsigned size type of
    the missing back-ends, as wide as a pointer. *)
Definition size_max : Z := 2 ^ (8 * ptr_size P) - 1.

(** Modelled from the spec: alignment is a power of two within the
    supported range (section 4.1, inputs of allocate-aligned in the
    missing back-ends). *)
Definition supported_alignment (al : Z) : Prop :=
  (∃ k, 0 ≤ k ∧ al = 2 ^ k) ∧ al ≤ size_max.

(** Modelled from the spec: a requested byte count of the missing back-ends,
    an unsigned integer that may be zero. *)
Definition size_in_range (size : Z) : Prop := 0 ≤ size ≤ size_max.

(** Modelled from the spec: what the platform mechanisms guarantee to the
    missing back-ends: a block they hand out is new, lies inside the address
    space and does not start at the null address, and the native primitive
    returns an address that is a multiple of the alignment. *)
Definition platform_ok : Prop :=
  0 < ptr_size P
  ∧ (∀ blocks n p, os_malloc P blocks n = Some p →
       0 < p ∧ p + n ≤ size_max + 1 ∧ blocks !! p = None)
  ∧ (∀ b blocks al n p, os_aligned P b blocks al n = Some p →
       0 < p ∧ p + n ≤ size_max + 1 ∧ blocks !! p = None ∧ p mod al = 0).

(** Modelled from the spec: one request of [n] bytes to the ordinary
    allocator, on behalf of the missing fallback header; the null marker
    comes back when memory is exhausted. *)
Definition request (h : heap) (n : Z) : Z * heap :=
  match os_malloc P (live h) n with
  | Some p => (p, {| live := <[p := n]> (live h);
                     cells := cells h;
                     requests := S (requests h) |})
  | None => (null, {| live := live h;
                      cells := cells h;
                      requests := S (requests h) |})
  end.

(** Modelled from the spec: releasing a block to the platform allocator on
    behalf of the missing back-ends; an address that is not the base of a
    live block is misuse (section 7), here a fault. *)
Definition release (h : heap) (p : Z) : outcome () :=
  match live h !! p with
  | Some _ => Done () {| live := delete p (live h);
                         cells := cells h;
                         requests := requests h |}
  | None => Fault
  end.

(** Modelled from the spec: writing the pointer-sized bookkeeping word of
    the missing fallback header; a write outside the live blocks is a
    fault. *)
Definition store (h : heap) (a v : Z) : option heap :=
  if decide (usable h a (ptr_size P))
  then Some {| live := live h;
               cells := <[a := v]> (cells h);
               requests := requests h |}
  else None.

(** Modelled from the spec: reading the bookkeeping word back in the
    missing fallback header. *)
Definition load (h : heap) (a : Z) : option Z :=
  if decide (usable h a (ptr_size P)) then cells h !! a else None.

(** Modelled from the spec: allocate-aligned of the missing fallback header
    (section 4.1, entry 7, and section 9): ordinary allocation of the
    requested size plus room for the adjustment and for the header, null on
    size overflow or exhausted memory, and the address of the original block
    stored immediately before the aligned region. *)
Definition allocate_manual (h : heap) (size al : Z) : outcome Z :=
  let n := size + (al - 1) + ptr_size P in
  if size_max <? n then Done null h
  else
    let '(p, h1) := request h n in
    if p =? null then Done null h1
    else
      let a := align_up (p + ptr_size P) al in
      match store h1 (a - ptr_size P) p with
      | Some h2 => Done a h2
      | None => Fault
      end.

(** Modelled from the spec: allocate-aligned of the four missing native
    back-end headers, which request the block from the platform's
    aligned-allocation primitive; exhausted memory or an alignment the
    primitive rejects is the null marker. *)
Definition allocate_native (b : backend) (h : heap) (size al : Z)
  : outcome Z :=
  match os_aligned P b (live h) al size with
  | Some p => Done p {| live := <[p := size]> (live h);
                        cells := cells h;
                        requests := S (requests h) |}
  | None => Done null {| live := live h;
                         cells := cells h;
                         requests := S (requests h) |}
  end.

(** Modelled from the spec: [allocate_aligned(size, alignment)] as the
    back-end [b] selected at build time provides it; the back-end headers
    are missing from the sources. *)
Definition allocate_aligned (b : backend) (h : heap) (size al : Z)
  : outcome Z :=
  match b with
  | Manual => allocate_manual h size al
  | _ => allocate_native b h size al
  end.

(** Modelled from the spec: [free_aligned(address)] of the missing back-end
    headers: a no-op on the null marker; otherwise the block goes back to
    the platform allocator, which the fallback finds through the address it
    stored before the aligned region. *)
Definition free_aligned (b : backend) (h : heap) (a : Z) : outcome () :=
  if a =? null then Done () h
  else
    match b with
    | Manual =>
        match load h (a - ptr_size P) with
        | Some p => release h p
        | None => Fault
        end
    | _ => release h a
    end.

(** Modelled from the spec: the invariant of section 3 on what a call of
    allocate-aligned of the missing back-ends leaves behind: either the
    null marker and the heap as it was, or an aligned address inside a new
    live block [p] of [n] bytes that holds [size] bytes from the address on
    and ends inside the address space; the fallback also leaves [p] in the
    word before the address. *)
Definition allocated (b : backend) (h : heap) (size al a : Z) (h' : heap)
  : Prop :=
  (a = null ∧ live h' = live h ∧ cells h' = cells h)
  ∨ (0 < a ∧ a mod al = 0
     ∧ ∃ p n, live h !! p = None ∧ live h' = <[p := n]> (live h)
              ∧ p ≤ a ∧ a + size ≤ p + n ∧ p + n ≤ size_max + 1
              ∧ if decide (b = Manual)
                then p + ptr_size P ≤ a
                     ∧ cells h' !! (a - ptr_size P) = Some p
                else a = p).

End OnPlatform.

(** *** A small platform to run the operations on *)

(** Four slots of 4096 bytes, the first at address 4096. *)
Definition slot_base (i : Z) : Z := 4096 * (i + 1).

(** The base of the first slot that is not live. *)
Definition free_slot (blocks : gmap Z Z) : option Z :=
  head (filter (λ p, blocks !! p = None) (slot_base <$> [0; 1; 2; 3])).

Definition slot_malloc (blocks : gmap Z Z) (n : Z) : option Z :=
  if n <=? 4096 then free_slot blocks else None.

(** The aligned primitive accepts the alignments that divide the slot
    size. *)
Definition slot_aligned (b : backend) (blocks : gmap Z Z) (al n : Z)
  : option Z :=
  if (0 <? al) && (4096 mod al =? 0) then slot_malloc blocks n else None.

Definition slots : platform :=
  {| ptr_size := 8; os_malloc := slot_malloc; os_aligned := slot_aligned |}.

Definition empty_heap : heap :=
  {| live := ∅; cells := ∅; requests := 0 |}.

End Allocator.

Import Allocator.

(** ** Concrete builds and states the results are run on *)

Module Examples.

Local Open Scope string_scope.

(** A MinGW build with the old C runtime on a system that advertises
    POSIX.1-2008. *)
Definition mingw_old_env : macro_env :=
  <[ "__MINGW32__" := 1 ]>
    (<[ "__MSVCRT_VERSION__" := 0x0600 ]>
       (<[ "_POSIX_C_SOURCE" := 200809 ]> ∅)).

(** A translation unit in which nothing has been defined or declared. *)
Definition fresh_tu : tu :=
  {| macros := ∅; included := []; symbols := ∅ |}.

(** External headers of a Linux build: Boost.Config announces [unistd.h],
    which in turn advertises POSIX.1-2008; no other header defines a macro
    the dispatch header reads. *)
Definition linux_headers (h : string) (e : gmap string Z) : gmap string Z :=
  if decide (h = "boost/config.hpp") then <[ "BOOST_HAS_UNISTD_H" := 1 ]> e
  else if decide (h = "unistd.h") then <[ "_POSIX_C_SOURCE" := 200809 ]> e
  else e.

End Examples.

Import Examples.

(** ** The macros the selection chain reads *)

Module Frame.

Local Open Scope string_scope.

(** Every macro named in a condition of lines 22 to 38, in source order. *)
Definition chain_macros : list string :=
  [ "BOOST_MSVC"; "__MINGW32__"; "__MSVCRT_VERSION__";
    "MAC_OS_X_VERSION_MIN_REQUIRED"; "__ANDROID__";
    "__SunOS_5_11"; "__SunOS_5_12"; "sun"; "__sun";
    "_POSIX_C_SOURCE"; "_XOPEN_SOURCE" ].

(** The condition of lines 18 to 20, under which [AvailabilityMacros.h] is
    included. *)
Definition apple_platform (e : macro_env) : bool :=
  defined e "__APPLE__" || defined e "__APPLE_CC__" || defined e "macintosh".

(** A build that defines one more macro, which no condition of the chain
    names. *)
Definition android_env : macro_env := {[ "__ANDROID__" := 1 ]}.
Definition android_env_debug : macro_env := <[ "NDEBUG" := 1 ]> android_env.

(** External headers of a build with Microsoft's compiler: Boost.Config
    identifies it by defining [BOOST_MSVC]. *)
Definition msvc_headers (h : string) (e : gmap string Z) : gmap string Z :=
  if decide (h = "boost/config.hpp") then <[ "BOOST_MSVC" := 1800 ]> e else e.

End Frame.

Import Frame.

(** ** The selection chain with conditions that may be ill-formed *)

Module Checked.

Local Open Scope string_scope.

(** What an object-like macro is defined as: an empty replacement list, as
    in [#define X], or a replacement list that evaluates to an integer. *)
Inductive replacement : Set :=
  | Blank
  | Num (z : Z).

Abbreviation raw_env := (gmap string replacement).

(** [defined(X)] *)
Definition raw_defined (e : raw_env) (x : string) : bool :=
  bool_decide (is_Some (e !! x)).

(** The identifier [X] as an operand of a comparison inside [#if]: [0] when
    it is not a macro, its integer when it has one, and no operand at all,
    which makes the condition ill-formed, when its replacement is empty. *)
Definition raw_value (e : raw_env) (x : string) : option Z :=
  match e !! x with
  | None => Some 0
  | Some (Num z) => Some z
  | Some Blank => None
  end.

(** [#if]/[#elif]/[#else] whose conditions may be ill-formed ([None]): the
    conditions are evaluated in order up to the first that holds; an
    ill-formed condition that is reached is an error, and the conditions
    after a group that is taken are not evaluated. *)
Fixpoint pp_cond_checked {A : Type}
    (groups : list (option bool * list A)) (els : list A)
  : option (list A) :=
  match groups with
  | [] => Some els
  | (None, _) :: _ => None
  | (Some true, body) :: _ => Some body
  | (Some false, _) :: rest => pp_cond_checked rest els
  end.

(** The groups of lines 22 to 38 again, each condition with its
    well-formedness. *)
Definition checked_groups (e : raw_env)
  : list (option bool * list string) :=
  [ (Some (raw_defined e "BOOST_MSVC"),
      ["boost/align/detail/aligned_alloc_msvc.hpp"]);
    (v ← raw_value e "__MSVCRT_VERSION__";
     Some (raw_defined e "__MINGW32__" && (v >=? 0x0700)),
      ["boost/align/detail/aligned_alloc_msvc.hpp"]);
    (v ← raw_value e "MAC_OS_X_VERSION_MIN_REQUIRED";
     Some (v >=? 1060),
      ["boost/align/detail/aligned_alloc_posix.hpp"]);
    (Some (raw_defined e "__ANDROID__"),
      ["boost/align/detail/aligned_alloc_android.hpp"]);
    (Some (raw_defined e "__SunOS_5_11" || raw_defined e "__SunOS_5_12"),
      ["boost/align/detail/aligned_alloc_posix.hpp"]);
    (Some (raw_defined e "sun" || raw_defined e "__sun"),
      ["boost/align/detail/aligned_alloc_sunos.hpp"]);
    (v ← raw_value e "_POSIX_C_SOURCE";
     w ← raw_value e "_XOPEN_SOURCE";
     Some ((v >=? 200112) || (w >=? 600)),
      ["boost/align/detail/aligned_alloc_posix.hpp"]) ].

(** The headers the chain includes, or [None] when the chain is an
    error. *)
Definition checked_chain (e : raw_env) : option (list string) :=
  pp_cond_checked (checked_groups e) backend_else.




(** [_XOPEN_SOURCE] defined with an empty replacement list, as in
    [#define _XOPEN_SOURCE], and nothing else. *)
Definition xopen_blank_env : raw_env := {[ "_XOPEN_SOURCE" := Blank ]}.


End Checked.

Import Checked.

(** ** Proof automation *)

(** Lookup of a literal name in a table built by inserting literal names. *)
Ltac lookup_concrete :=
  repeat (first [ rewrite lookup_insert_eq
                | rewrite lookup_insert_ne by discriminate ]);
  reflexivity.

(** ** Results on the selection chain *)

Section SelectionFacts.

Implicit Types (e : macro_env) (b : backend).

Lemma first_match_select e rules b :
  first_match e rules b ↔ select rules e = b.
Proof.
  split.
  - induction 1 as [|c b rest Hc|c b rest b' Hc _ IH]; simpl.
    + reflexivity.
    + by rewrite Hc.
    + by rewrite Hc.
  - revert b. induction rules as [|[c b0] rest IH]; simpl; intros b Hb.
    + subst b. constructor.
    + destruct (c e) eqn:Hc.
      * subst b. by constructor.
      * apply fm_next; [done|]. by apply IH.
Qed.

Lemma first_match_functional e rules b1 b2 :
  first_match e rules b1 → first_match e rules b2 → b1 = b2.
Proof. rewrite !first_match_select. congruence. Qed.

Lemma detail_header_inj b1 b2 :
  detail_header b1 = detail_header b2 → b1 = b2.
Proof. destruct b1, b2; simpl; intros H; (done || discriminate H). Qed.

(** The source chain, with its two Windows groups, computes the priority
    order. *)
Lemma backend_chain_select e :
  backend_chain e = [detail_header (select priority_order e)].
Proof.
  unfold backend_chain, backend_groups, priority_order; simpl.
  unfold windows_family, apple_min_os, android, sunos_recent, sunos_legacy,
    posix_advertised.
  destruct (defined e "BOOST_MSVC"); simpl; [done|].
  destruct (defined e "__MINGW32__" && _); simpl; [done|].
  repeat (match goal with
          | |- context [if ?c then _ else _] => destruct c; simpl; [done|]
          end).
  done.
Qed.

End SelectionFacts.

(** The chain on the builds the header names. *)
Section SelectionExamples.

Local Open Scope string_scope.

Example chain_msvc :
  backend_chain {[ "BOOST_MSVC" := 1800 ]} = [detail_header Msvc].
Proof. reflexivity. Qed.

Example chain_mingw_new_runtime :
  backend_chain (<[ "__MINGW32__" := 1 ]> {[ "__MSVCRT_VERSION__" := 0x0700 ]})
  = [detail_header Msvc].
Proof. reflexivity. Qed.

Example chain_mingw_old_runtime :
  backend_chain (<[ "__MINGW32__" := 1 ]> {[ "__MSVCRT_VERSION__" := 0x0601 ]})
  = [detail_header Manual].
Proof. reflexivity. Qed.

Example chain_apple :
  backend_chain (<[ "__APPLE__" := 1 ]>
                   {[ "MAC_OS_X_VERSION_MIN_REQUIRED" := 1060 ]})
  = [detail_header Posix].
Proof. reflexivity. Qed.

Example chain_apple_old :
  backend_chain (<[ "__APPLE__" := 1 ]>
                   {[ "MAC_OS_X_VERSION_MIN_REQUIRED" := 1050 ]})
  = [detail_header Manual].
Proof. reflexivity. Qed.

(** Android advertises POSIX as well; the earlier group wins. *)
Example chain_android :
  backend_chain (<[ "__ANDROID__" := 1 ]> {[ "_POSIX_C_SOURCE" := 200809 ]})
  = [detail_header Android].
Proof. reflexivity. Qed.

Example chain_sunos_5_11 :
  backend_chain (<[ "__SunOS_5_11" := 1 ]> {[ "__sun" := 1 ]})
  = [detail_header Posix].
Proof. reflexivity. Qed.

Example chain_sunos_legacy :
  backend_chain (<[ "sun" := 1 ]> {[ "_XOPEN_SOURCE" := 600 ]})
  = [detail_header Sunos].
Proof. reflexivity. Qed.

Example chain_xopen :
  backend_chain {[ "_XOPEN_SOURCE" := 600 ]} = [detail_header Posix].
Proof. reflexivity. Qed.

Example chain_nothing_defined :
  backend_chain ∅ = [detail_header Manual].
Proof. reflexivity. Qed.

End SelectionExamples.

(** C1: the back-end is selected by a first-match-wins chain over the
    priority order Windows-family intrinsic, Apple at or above the minimum
    OS version (POSIX), Android, SunOS 5.11/5.12 (POSIX), legacy SunOS,
    generic POSIX, portable fallback: under every macro environment the
    header the chain includes is the header of the first entry whose
    condition holds, that back-end exists and it is unique. *)
Theorem backend_selection_first_match :
  ∀ e : macro_env,
    (∀ b, first_match e priority_order b ↔
          backend_chain e = [detail_header b])
    ∧ (∃ b, first_match e priority_order b
            ∧ ∀ b', first_match e priority_order b' → b' = b).
Proof.
  intros e. split.
  - intros b. rewrite first_match_select, backend_chain_select. split.
    + by intros ->.
    + intros H. apply detail_header_inj. congruence.
  - exists (select priority_order e). split.
    + by apply first_match_select.
    + intros b' H. by apply first_match_select in H.
Qed.

(** C9: a MinGW build whose [__MSVCRT_VERSION__] is undefined or below
    [0x0700] does not get the intrinsic back-end of the Windows family: the
    first two groups are skipped and the header is the one the rest of the
    chain selects (Apple, Android, SunOS, POSIX or the fallback). *)
Theorem mingw_old_runtime_falls_through :
  ∀ e : macro_env,
    mingw_build e →
    e !! "__MSVCRT_VERSION__"%string = None
    ∨ pp_value e "__MSVCRT_VERSION__" < 0x0700 →
    backend_chain e = later_chain e
    ∧ backend_chain e = [detail_header (select (tail priority_order) e)]
    ∧ backend_chain e ≠ [detail_header Msvc].
Proof.
  intros e [Hmingw Hmsvc] Hver.
  assert (Hlow : (pp_value e "__MSVCRT_VERSION__" >=? 0x0700) = false).
  { rewrite Z.geb_leb. apply Z.leb_gt.
    destruct Hver as [Hnone|Hlt]; [|exact Hlt].
    unfold pp_value. rewrite Hnone. reflexivity. }
  assert (Hsel : select priority_order e = select (tail priority_order) e).
  { simpl. unfold windows_family. by rewrite Hmsvc, Hmingw, Hlow. }
  split; [|split].
  - unfold backend_chain, later_chain, backend_groups. simpl.
    by rewrite Hmsvc, Hmingw, Hlow.
  - by rewrite backend_chain_select, Hsel.
  - rewrite backend_chain_select, Hsel. simpl.
    repeat (match goal with
            | |- context [if ?c then _ else _] => destruct c
            end); discriminate.
Qed.

Lemma mingw_old_runtime_falls_through_witness :
  mingw_build mingw_old_env
  ∧ backend_chain mingw_old_env = [detail_header Posix].
Proof.
  assert (Hbuild : mingw_build mingw_old_env) by (split; reflexivity).
  split; [exact Hbuild|].
  destruct (mingw_old_runtime_falls_through mingw_old_env Hbuild)
    as (_ & Hsel & _).
  - right. vm_compute. reflexivity.
  - rewrite Hsel. reflexivity.
Defined.

(** ** Results on the whole header *)

Section HeaderFacts.

Local Open Scope string_scope.

Variable ext : string → gmap string Z → gmap string Z.

Implicit Types (s : tu) (b : backend).

Lemma backend_of_header_detail b :
  backend_of_header (detail_header b) = Some b.
Proof. destruct b; reflexivity. Qed.


Lemma defined_insert (e : gmap string Z) x y v :
  defined e x = true → defined (<[y := v]> e) x = true.
Proof.
  unfold defined. rewrite !bool_decide_eq_true. intros Hx.
  destruct (decide (y = x)) as [->|Hne].
  - rewrite lookup_insert_eq. eauto.
  - by rewrite lookup_insert_ne.
Qed.

Lemma defined_insert_eq (e : gmap string Z) x v :
  defined (<[x := v]> e) x = true.
Proof.
  unfold defined. rewrite bool_decide_eq_true, lookup_insert_eq. eauto.
Qed.

Lemma include_included h s :
  included (include ext h s) = (included s ++ [h])%list.
Proof. reflexivity. Qed.

Lemma include_symbols_external h s :
  backend_of_header h = None → symbols (include ext h s) = symbols s.
Proof. intros H. unfold include. simpl. by rewrite H. Qed.

(** The includes of the preamble declare nothing the header re-exports and
    none of them is a back-end header. *)
Lemma preamble_spec s :
  symbols (preamble ext s) = symbols s
  ∧ ∃ pre, included (preamble ext s) = (included s ++ pre)%list
           ∧ filter (λ h, is_backend_header h = true) pre = [].
Proof.
  unfold preamble.
  repeat (match goal with
          | |- context [if ?c then _ else _] => destruct c
          end);
    rewrite ?include_included, ?include_symbols_external by reflexivity;
    (split; [reflexivity|]); rewrite <- ?app_assoc; eexists;
    (split; [reflexivity|]); reflexivity.
Qed.

(** The macros of a state survive the preamble when the external headers
    leave them defined. *)
Lemma preamble_keeps x s :
  (∀ h e, defined e x = true → defined (ext h e) x = true) →
  defined (macros s) x = true → defined (macros (preamble ext s)) x = true.
Proof.
  intros Hext Hx. unfold preamble.
  repeat (match goal with
          | |- context [if ?c then _ else _] => destruct c
          end); simpl; auto.
Qed.

(** The chain includes one header, that of the selected back-end. *)
Lemma include_backend_spec s :
  include_backend ext s
  = include ext (detail_header (select priority_order (macros s))) s.
Proof. unfold include_backend. by rewrite backend_chain_select. Qed.

Lemma using_decl_spec scope target s ent name :
  symbols s !! (scope ++ target)%list = Some ent →
  last target = Some name →
  using_decl scope target s
  = Some {| macros := macros s;
            included := included s;
            symbols := <[ (scope ++ [name])%list := ent ]> (symbols s) |}.
Proof.
  intros Hent Hname. unfold using_decl. rewrite Hent. cbn. by rewrite Hname.
Qed.

(** What the header does the first time it is read. *)
Lemma aligned_alloc_hpp_first s :
  defined (macros s) guard = false →
  let b := select priority_order (chain_env ext s) in
  let s1 := preamble ext (define guard s) in
  aligned_alloc_hpp ext s
  = Some {| macros := ext (detail_header b) (macros s1);
            included := (included s1 ++ [detail_header b])%list;
            symbols :=
              <[ ["boost"; "aligned_free"] := Fn b AlignedFree ]>
              (<[ ["boost"; "aligned_alloc"] := Fn b AlignedAlloc ]>
              (<[ ["boost"; "alignment"; "aligned_free"] := Fn b AlignedFree ]>
              (<[ ["boost"; "alignment"; "aligned_alloc"]
                    := Fn b AlignedAlloc ]>
              (declare_backend b (symbols s))))) |}.
Proof.
  intros Hg b s1. unfold aligned_alloc_hpp. rewrite Hg.
  fold s1. rewrite include_backend_spec.
  unfold chain_env in b. fold s1 in b. fold b.
  assert (Hsym : symbols s1 = symbols s).
  { subst s1. by destruct (preamble_spec (define guard s)) as [-> _]. }
  unfold reexport, include. rewrite backend_of_header_detail, Hsym.
  unfold declare_backend.
  rewrite (using_decl_spec ["boost"; "alignment"] ["detail"; "aligned_alloc"]
             _ (Fn b AlignedAlloc) "aligned_alloc");
    [|cbn [symbols app];
      rewrite lookup_insert_ne by discriminate; apply lookup_insert_eq
     |reflexivity].
  cbn [mbind option_bind macros included symbols app].
  rewrite (using_decl_spec ["boost"; "alignment"] ["detail"; "aligned_free"]
             _ (Fn b AlignedFree) "aligned_free");
    [|cbn [symbols app];
      rewrite lookup_insert_ne by discriminate; apply lookup_insert_eq
     |reflexivity].
  cbn [mbind option_bind macros included symbols app].
  rewrite (using_decl_spec ["boost"] ["alignment"; "aligned_alloc"]
             _ (Fn b AlignedAlloc) "aligned_alloc");
    [|cbn [symbols app];
      rewrite lookup_insert_ne by discriminate; apply lookup_insert_eq
     |reflexivity].
  cbn [mbind option_bind macros included symbols app].
  rewrite (using_decl_spec ["boost"] ["alignment"; "aligned_free"]
             _ (Fn b AlignedFree) "aligned_free");
    [|cbn [symbols app];
      rewrite !lookup_insert_ne by discriminate; apply lookup_insert_eq
     |reflexivity].
  reflexivity.
Qed.

End HeaderFacts.

(** C2: read for the first time, the header ends with
    [boost::alignment::aligned_alloc], [boost::alignment::aligned_free],
    [boost::aligned_alloc] and [boost::aligned_free] naming the functions
    that [detail::aligned_alloc] and [detail::aligned_free] of the selected
    back-end name, and no other name is declared or changed: exactly the two
    operations are re-exported. *)
Theorem reexport_names_selected_backend :
  ∀ (ext : string → gmap string Z → gmap string Z) (s : tu),
    defined (macros s) guard = false →
    ∃ s' b,
      aligned_alloc_hpp ext s = Some s'
      ∧ backend_chain (chain_env ext s) = [detail_header b]
      ∧ symbols s' !! ["boost"; "alignment"; "detail"; "aligned_alloc"]%string
        = Some (Fn b AlignedAlloc)
      ∧ symbols s' !! ["boost"; "alignment"; "detail"; "aligned_free"]%string
        = Some (Fn b AlignedFree)
      ∧ symbols s' !! ["boost"; "alignment"; "aligned_alloc"]%string
        = symbols s' !! ["boost"; "alignment"; "detail"; "aligned_alloc"]%string
      ∧ symbols s' !! ["boost"; "alignment"; "aligned_free"]%string
        = symbols s' !! ["boost"; "alignment"; "detail"; "aligned_free"]%string
      ∧ symbols s' !! ["boost"; "aligned_alloc"]%string
        = symbols s' !! ["boost"; "alignment"; "detail"; "aligned_alloc"]%string
      ∧ symbols s' !! ["boost"; "aligned_free"]%string
        = symbols s' !! ["boost"; "alignment"; "detail"; "aligned_free"]%string
      ∧ ∀ q : list string,
          q ∉ [ ["boost"; "alignment"; "detail"; "aligned_alloc"];
                ["boost"; "alignment"; "detail"; "aligned_free"];
                ["boost"; "alignment"; "aligned_alloc"];
                ["boost"; "alignment"; "aligned_free"];
                ["boost"; "aligned_alloc"];
                ["boost"; "aligned_free"] ]%string →
          symbols s' !! q = symbols s !! q.
Proof.
  intros ext s Hg.
  eexists; exists (select priority_order (chain_env ext s)).
  split; [by apply aligned_alloc_hpp_first|].
  split; [apply backend_chain_select|].
  cbn [symbols]. unfold declare_backend.
  split_and!; try lookup_concrete.
  intros q Hq.
  rewrite !not_elem_of_cons in Hq.
  destruct Hq as (? & ? & ? & ? & ? & ? & _).
  by rewrite !lookup_insert_ne.
Qed.

Lemma reexport_names_selected_backend_witness :
  defined (macros fresh_tu) guard = false
  ∧ ∃ s', aligned_alloc_hpp linux_headers fresh_tu = Some s'
          ∧ symbols s' !! ["boost"; "aligned_alloc"]%string
            = Some (Fn Posix AlignedAlloc)
          ∧ symbols s' !! ["boost"; "aligned_free"]%string
            = Some (Fn Posix AlignedFree).
Proof.
  split; [reflexivity|].
  destruct (reexport_names_selected_backend linux_headers fresh_tu eq_refl)
    as (s' & b & Hrun & Hsel & Ha & Hf & _ & _ & Hba & Hbf & _).
  assert (Hb : b = Posix).
  { vm_compute in Hsel. destruct b; (reflexivity || discriminate Hsel). }
  subst b. exists s'. split; [exact Hrun|].
  split; congruence.
Defined.

Section CheckedFacts.

Local Open Scope string_scope.

Implicit Types (e : raw_env).





(** A group that is taken hides the conditions after it: with
    Microsoft's compiler the empty [_XOPEN_SOURCE] is never looked at. *)
Example checked_chain_msvc_hides_later :
  checked_chain (<[ "BOOST_MSVC" := Num 1800 ]> xopen_blank_env)
  = Some [detail_header Msvc].
Proof. reflexivity. Qed.

(** The second condition is ill-formed with an empty [__MSVCRT_VERSION__]
    even where [__MINGW32__] is not defined. *)
Example checked_chain_blank_msvcrt :
  checked_chain {[ "__MSVCRT_VERSION__" := Blank ]} = None.
Proof. reflexivity. Qed.

End CheckedFacts.




(** C10: including the header is idempotent.  With the guard defined the
    header changes nothing; the first inclusion defines the guard; hence,
    as long as the headers it includes do not undefine the guard, any
    number of inclusions in a row leaves the translation unit as one
    inclusion does. *)
Theorem include_guard_idempotent :
  ∀ (ext : string → gmap string Z → gmap string Z),
    (∀ h e, defined e guard = true → defined (ext h e) guard = true) →
    ∀ s : tu,
      (defined (macros s) guard = true → aligned_alloc_hpp ext s = Some s)
      ∧ ∃ s', aligned_alloc_hpp ext s = Some s'
              ∧ defined (macros s') guard = true
              ∧ ∀ n, include_times ext (S n) s = Some s'.
Proof.
  intros ext Hext s.
  assert (Hskip : ∀ t, defined (macros t) guard = true →
                       aligned_alloc_hpp ext t = Some t).
  { intros t Ht. unfold aligned_alloc_hpp. by rewrite Ht. }
  split; [apply Hskip|].
  assert (Hfirst : ∃ s', aligned_alloc_hpp ext s = Some s'
                         ∧ defined (macros s') guard = true).
  { destruct (defined (macros s) guard) eqn:Hg.
    - exists s. split; [by apply Hskip|exact Hg].
    - eexists. split; [by apply aligned_alloc_hpp_first|].
      cbn [macros]. apply Hext, preamble_keeps; [exact Hext|].
      apply defined_insert_eq. }
  destruct Hfirst as (s' & Hrun & Hg'). exists s'.
  split; [exact Hrun|]. split; [exact Hg'|].
  intros n. cbn [include_times]. rewrite Hrun. cbn.
  induction n as [|n IH]; [reflexivity|].
  cbn [include_times]. rewrite (Hskip s' Hg'). exact IH.
Qed.

Lemma linux_headers_keep_guard :
  ∀ h e, defined e guard = true → defined (linux_headers h e) guard = true.
Proof.
  intros h e Hg. unfold linux_headers.
  repeat case_decide; try apply defined_insert; exact Hg.
Qed.

Lemma include_guard_idempotent_witness :
  (∀ h e, defined e guard = true → defined (linux_headers h e) guard = true)
  ∧ include_times linux_headers 3 fresh_tu
    = aligned_alloc_hpp linux_headers fresh_tu.
Proof.
  split; [exact linux_headers_keep_guard|].
  destruct (include_guard_idempotent linux_headers linux_headers_keep_guard
              fresh_tu) as (_ & s' & Hrun & _ & Hn).
  rewrite Hrun. exact (Hn 2%nat).
Defined.

(** ** Results on the allocation contract *)

Lemma align_up_spec (x al : Z) :
  0 < al → align_up x al mod al = 0 ∧ x ≤ align_up x al < x + al.
Proof.
  intros Hal. unfold align_up.
  pose proof (Z.mod_pos_bound x al Hal) as Hr.
  pose proof (Z.mod_pos_bound (al - x mod al) al Hal) as Hr'.
  split; [|lia].
  rewrite Zplus_mod_idemp_r.
  replace (x + (al - x mod al)) with ((x / al + 1) * al)
    by (pose proof (Z.div_mod x al); lia).
  apply Z_mod_mult.
Qed.

Section AllocatorFacts.

Variable P : platform.
Hypothesis platform_good : platform_ok P.

Implicit Types (h : heap) (b : backend).

Lemma allocate_manual_spec h size al :
  0 ≤ size → 0 < al →
  ∃ a h', allocate_manual P h size al = Done a h'
          ∧ (requests h' ≤ S (requests h))%nat
          ∧ allocated P Manual h size al a h'.
Proof.
  intros Hsize Hal. destruct platform_good as (Hptr & Hmalloc & _).
  unfold allocate_manual.
  destruct (size_max P <? size + (al - 1) + ptr_size P) eqn:Hov.
  { exists null, h. split; [reflexivity|]. split; [lia|]. by left. }
  unfold request.
  destruct (os_malloc P (live h) (size + (al - 1) + ptr_size P))
    as [p|] eqn:Hp.
  2:{ eexists _, _. split; [reflexivity|]. split; [simpl; lia|]. by left. }
  destruct (Hmalloc _ _ _ Hp) as (Hpos & Hend & Hnew).
  replace (p =? null) with false
    by (symmetry; apply Z.eqb_neq; unfold null; lia).
  destruct (align_up_spec (p + ptr_size P) al Hal) as (Hmod & Hlo & Hhi).
  set (a := align_up (p + ptr_size P) al) in *.
  unfold store. cbn [live cells requests].
  rewrite decide_True.
  - eexists _, _. split; [reflexivity|]. split; [simpl; lia|].
    right. split; [lia|]. split; [exact Hmod|].
    exists p, (size + (al - 1) + ptr_size P). cbn [live cells].
    rewrite decide_True by reflexivity.
    repeat split; try lia; [exact Hnew|].
    apply lookup_insert_eq.
  - exists p, (size + (al - 1) + ptr_size P).
    split; [apply lookup_insert_eq|]. lia.
Qed.

Lemma allocate_native_spec b h size al :
  b ≠ Manual → 0 ≤ size →
  ∃ a h', allocate_native P b h size al = Done a h'
          ∧ (requests h' ≤ S (requests h))%nat
          ∧ allocated P b h size al a h'.
Proof.
  intros Hb Hsize. destruct platform_good as (_ & _ & Haligned).
  unfold allocate_native.
  destruct (os_aligned P b (live h) al size) as [p|] eqn:Hp.
  - destruct (Haligned _ _ _ _ _ Hp) as (Hpos & Hend & Hnew & Hmod).
    eexists _, _. split; [reflexivity|]. split; [simpl; lia|].
    right. split; [exact Hpos|]. split; [exact Hmod|].
    exists p, size. cbn [live cells]. rewrite decide_False by exact Hb.
    repeat split; try lia. exact Hnew.
  - eexists _, _. split; [reflexivity|]. split; [simpl; lia|]. by left.
Qed.

Lemma allocate_aligned_spec b h size al :
  0 ≤ size → 0 < al →
  ∃ a h', allocate_aligned P b h size al = Done a h'
          ∧ (requests h' ≤ S (requests h))%nat
          ∧ allocated P b h size al a h'.
Proof.
  intros Hsize Hal.
  destruct b; try (apply allocate_native_spec; [discriminate|exact Hsize]).
  by apply allocate_manual_spec.
Qed.

Lemma supported_alignment_pos al : supported_alignment P al → 0 < al.
Proof. intros [(k & Hk & ->) _]. by apply Z.pow_pos_nonneg. Qed.

(** An address that allocate-aligned returned is accepted by free-aligned of
    the same back-end, and the live blocks are then those from before the
    allocation. *)
Lemma free_after_allocate b h size al a h' :
  0 ≤ size → 0 < al →
  allocate_aligned P b h size al = Done a h' →
  ∃ h'', free_aligned P b h' a = Done () h'' ∧ live h'' = live h.
Proof.
  intros Hsize Hal Hrun.
  destruct (allocate_aligned_spec b h size al Hsize Hal)
    as (a0 & h0 & Hrun0 & _ & Hpost).
  rewrite Hrun in Hrun0. injection Hrun0 as <- <-.
  unfold free_aligned.
  destruct Hpost
    as [(-> & Hlive & _)
       |(Hpos & _ & p & n & Hnew & Hlive & Hlo & Hhi & _ & Hb)].
  { exists h'. by rewrite Z.eqb_refl. }
  replace (a =? null) with false
    by (symmetry; apply Z.eqb_neq; unfold null; lia).
  assert (Hrel : ∃ h'', release h' p = Done () h'' ∧ live h'' = live h).
  { unfold release. rewrite Hlive, lookup_insert_eq. eexists.
    split; [reflexivity|].
    cbn [live]. by apply delete_insert_id. }
  destruct (decide (b = Manual)) as [->|Hne].
  - destruct Hb as [Hgap Hcell]. unfold load. rewrite decide_True.
    + rewrite Hcell. exact Hrel.
    + exists p, n. rewrite Hlive, lookup_insert_eq. split; [reflexivity|]. lia.
  - subst a. by destruct b.
Qed.

End AllocatorFacts.

(** The four-slot platform keeps the platform contract. *)
Lemma size_max_slots : size_max slots = 18446744073709551615.
Proof. vm_compute. reflexivity. Qed.

Lemma slot_malloc_spec blocks n p :
  slot_malloc blocks n = Some p →
  0 < p ∧ p + n ≤ 18446744073709551616 ∧ blocks !! p = None ∧ p mod 4096 = 0.
Proof.
  unfold slot_malloc, free_slot.
  destruct (n <=? 4096) eqn:Hn; [|discriminate].
  apply Z.leb_le in Hn. intros Hhead.
  apply head_Some_elem_of, list_elem_of_filter in Hhead as [Hnew Hin].
  cbn [fmap list_fmap] in Hin.
  assert (Hp : p = 4096 ∨ p = 8192 ∨ p = 12288 ∨ p = 16384).
  { repeat (apply elem_of_cons in Hin as [->|Hin]; [auto|]).
    by apply elem_of_nil in Hin. }
  split_and!; [lia|lia|exact Hnew|].
  destruct Hp as [-> | [-> | [-> | ->]]]; reflexivity.
Qed.

Lemma slots_platform_ok : platform_ok slots.
Proof.
  unfold platform_ok. rewrite size_max_slots.
  split; [reflexivity|]. split.
  - intros blocks n p Hp.
    destruct (slot_malloc_spec blocks n p Hp) as (? & ? & ? & _). done.
  - intros b blocks al n p Hp.
    assert (Hal : 0 < al ∧ (al | 4096)
                  ∧ slot_malloc blocks n = Some p).
    { revert Hp. change (os_aligned slots) with slot_aligned.
      unfold slot_aligned.
      destruct (0 <? al) eqn:Hal; [|discriminate].
      destruct (4096 mod al =? 0) eqn:Hdiv; [|discriminate].
      apply Z.ltb_lt in Hal. apply Z.eqb_eq in Hdiv.
      apply Z.mod_divide in Hdiv; [|lia]. done. }
    destruct Hal as (Hal & Hdiv & Hp').
    destruct (slot_malloc_spec blocks n p Hp') as (? & ? & ? & Hmod).
    split_and!; try done.
    apply Z.mod_divide in Hmod; [|lia].
    apply Z.mod_divide; [lia|]. by etrans.
Qed.

Lemma slots_supports_64 : supported_alignment slots 64.
Proof.
  split; [exists 6; split; [lia|reflexivity]|]. vm_compute. discriminate.
Qed.

(** C3: on every back-end, for every size and every power-of-two alignment
    in the supported range, an address that allocate-aligned returns and
    that is not the null marker is a multiple of the alignment, and the
    [size] bytes that start at it are usable. *)
Theorem allocate_aligned_address_aligned :
  ∀ (P : platform) (b : backend) (h : heap) (size al a : Z) (h' : heap),
    platform_ok P →
    size_in_range P size →
    supported_alignment P al →
    allocate_aligned P b h size al = Done a h' →
    a ≠ null →
    a mod al = 0 ∧ usable h' a size.
Proof.
  intros P b h size al a h' HP [Hsize _] Hal Hrun Hnn.
  apply supported_alignment_pos in Hal.
  destruct (allocate_aligned_spec P HP b h size al Hsize Hal)
    as (a0 & h0 & Hrun0 & _ & Hpost).
  rewrite Hrun in Hrun0. injection Hrun0 as <- <-.
  destruct Hpost as [(Hnull & _)|(_ & Hmod & p & n & _ & Hlive & Hlo & Hhi & _)];
    [done|].
  split; [exact Hmod|].
  exists p, n. rewrite Hlive, lookup_insert_eq. split; [reflexivity|]. lia.
Qed.

Lemma allocate_aligned_address_aligned_witness :
  allocate_aligned slots Manual empty_heap 1024 64
  = Done 4160 {| live := {[ 4096 := 1095 ]};
                 cells := {[ 4152 := 4096 ]};
                 requests := 1 |}
  ∧ 4160 mod 64 = 0
  ∧ usable {| live := {[ 4096 := 1095 ]};
              cells := {[ 4152 := 4096 ]};
              requests := 1 |} 4160 1024.
Proof.
  assert (Hrun : allocate_aligned slots Manual empty_heap 1024 64
                 = Done 4160 {| live := {[ 4096 := 1095 ]};
                                cells := {[ 4152 := 4096 ]};
                                requests := 1 |})
    by (vm_compute; reflexivity).
  split; [exact Hrun|].
  apply (allocate_aligned_address_aligned slots Manual empty_heap 1024 64
           4160 _ slots_platform_ok).
  - split; [lia|]. vm_compute. discriminate.
  - exact slots_supports_64.
  - exact Hrun.
  - discriminate.
Defined.




(** C5: free-aligned applied to the null marker returns normally and leaves
    the heap exactly as it was, on every back-end. *)
Theorem free_aligned_null_is_noop :
  ∀ (P : platform) (b : backend) (h : heap),
    free_aligned P b h null = Done () h.
Proof. intros P b h. unfold free_aligned. by rewrite Z.eqb_refl. Qed.

(** C6: on every back-end, the request for [SIZE_MAX] bytes with alignment
    16 returns the null marker, without a fault and with the heap as it
    was. *)
Theorem allocate_size_max_is_null :
  ∀ (P : platform) (b : backend) (h : heap),
    platform_ok P →
    ∃ h', allocate_aligned P b h (size_max P) 16 = Done null h'
          ∧ live h' = live h ∧ cells h' = cells h.
Proof.
  intros P b h HP.
  pose proof HP as (Hptr & _ & _).
  assert (Hmax : 0 ≤ size_max P).
  { unfold size_max. pose proof (Z.pow_pos_nonneg 2 (8 * ptr_size P)). lia. }
  destruct (allocate_aligned_spec P HP b h (size_max P) 16 Hmax)
    as (a & h' & Hrun & _ & Hpost); [lia|].
  destruct Hpost
    as [(-> & Hlive & Hcells)
       |(Hpos & Hmod & p & n & _ & _ & _ & Hhi & Hend & _)].
  - by exists h'.
  - exfalso. pose proof (Z.div_mod a 16). lia.
Qed.

Lemma allocate_size_max_is_null_witness :
  platform_ok slots
  ∧ ∃ h', allocate_aligned slots Manual empty_heap 18446744073709551615 16
          = Done null h'.
Proof.
  split; [exact slots_platform_ok|].
  destruct (allocate_size_max_is_null slots Manual empty_heap
              slots_platform_ok) as (h' & Hrun & _).
  exists h'. exact Hrun.
Defined.

(** ** Further results on the header *)

Section ChainFrame.

Local Open Scope string_scope.

Lemma chain_macro_elem x : In x chain_macros → x ∈ chain_macros.
Proof. apply list_elem_of_In. Qed.

End ChainFrame.

(** X1: the selection is a function of the eleven macros of
    [chain_macros], as the preprocessor evaluates them: two macro
    environments in which each of these macros is defined or not alike and
    evaluates to the same integer select the same header. *)
Theorem selection_reads_only_chain_macros :
  ∀ e e' : macro_env,
    (∀ x, x ∈ chain_macros → e !! x = e' !! x) →
    backend_chain e = backend_chain e'.
Proof.
  intros e e' Hagree.
  unfold backend_chain, backend_groups, defined, pp_value.
  repeat match goal with
         | |- context [e !! ?x] =>
             rewrite (Hagree x) by (apply chain_macro_elem; simpl; tauto)
         end.
  reflexivity.
Qed.

Lemma selection_reads_only_chain_macros_witness :
  (∀ x, x ∈ chain_macros → android_env !! x = android_env_debug !! x)
  ∧ backend_chain android_env = backend_chain android_env_debug.
Proof.
  assert (Hagree : ∀ x, x ∈ chain_macros →
                        android_env !! x = android_env_debug !! x).
  { intros x Hx. unfold android_env_debug. symmetry.
    apply lookup_insert_ne. intros <-.
    apply list_elem_of_In in Hx. simpl in Hx.
    repeat (destruct Hx as [Hx|Hx]; [discriminate Hx|]). exact Hx. }
  split; [exact Hagree|].
  exact (selection_reads_only_chain_macros _ _ Hagree).
Defined.

(** X2: the selection table.  Under every macro environment each back-end
    header is selected exactly under its own condition and the failure of
    every earlier one; the POSIX header is reached on three routes, and the
    fallback exactly when no condition holds. *)
Theorem selection_table :
  ∀ e : macro_env,
    (backend_chain e = [detail_header Msvc] ↔ windows_family e = true)
    ∧ (backend_chain e = [detail_header Android] ↔
       windows_family e = false ∧ apple_min_os e = false ∧ android e = true)
    ∧ (backend_chain e = [detail_header Sunos] ↔
       windows_family e = false ∧ apple_min_os e = false ∧ android e = false
       ∧ sunos_recent e = false ∧ sunos_legacy e = true)
    ∧ (backend_chain e = [detail_header Posix] ↔
       windows_family e = false
       ∧ (apple_min_os e = true
          ∨ (android e = false
             ∧ (sunos_recent e = true
                ∨ (sunos_legacy e = false ∧ posix_advertised e = true)))))
    ∧ (backend_chain e = [detail_header Manual] ↔
       windows_family e = false ∧ apple_min_os e = false ∧ android e = false
       ∧ sunos_recent e = false ∧ sunos_legacy e = false
       ∧ posix_advertised e = false).
Proof.
  intros e. rewrite backend_chain_select. unfold priority_order, select.
  destruct (windows_family e), (apple_min_os e), (android e),
    (sunos_recent e), (sunos_legacy e), (posix_advertised e);
    cbn [detail_header];
    split_and!; split; intros H;
      first [ discriminate H | reflexivity | intuition discriminate ].
Qed.

Section HeaderEffects.

Local Open Scope string_scope.

Variable ext : string → gmap string Z → gmap string Z.

(** The preamble, with the macro environment at each of its two tests. *)
Lemma preamble_unfold (t : tu) :
  let e1 := ext "boost/config.hpp" (macros t) in
  let e2 := if defined e1 "BOOST_HAS_UNISTD_H" then ext "unistd.h" e1
            else e1 in
  let pre := (["boost/config.hpp"]
              ++ (if defined e1 "BOOST_HAS_UNISTD_H" then ["unistd.h"]
                  else [])
              ++ (if apple_platform e2 then ["AvailabilityMacros.h"]
                  else []))%list in
  included (preamble ext t) = (included t ++ pre)%list
  ∧ macros (preamble ext t) = foldl (λ e h, ext h e) (macros t) pre.
Proof.
  unfold preamble, apple_platform. cbn [include macros included].
  destruct (defined (ext "boost/config.hpp" (macros t)) "BOOST_HAS_UNISTD_H");
    cbn [include macros included];
    match goal with
    | |- context [if ?c then _ else _] => destruct c
    end;
    cbn [include macros included app foldl]; rewrite <- ?app_assoc;
    split; reflexivity.
Qed.

Lemma using_decl_undeclared (scope target : list string) (s : tu) :
  symbols s !! (scope ++ target)%list = None →
  using_decl scope target s = None.
Proof. intros Hnone. unfold using_decl. by rewrite Hnone. Qed.

(** The four using-declarations, when both [detail] names are declared. *)
Lemma reexport_spec (s : tu) (fa ff : entity) :
  symbols s !! ["boost"; "alignment"; "detail"; "aligned_alloc"] = Some fa →
  symbols s !! ["boost"; "alignment"; "detail"; "aligned_free"] = Some ff →
  reexport s
  = Some {| macros := macros s;
            included := included s;
            symbols :=
              <[ ["boost"; "aligned_free"] := ff ]>
              (<[ ["boost"; "aligned_alloc"] := fa ]>
              (<[ ["boost"; "alignment"; "aligned_free"] := ff ]>
              (<[ ["boost"; "alignment"; "aligned_alloc"] := fa ]>
                 (symbols s)))) |}.
Proof.
  intros Ha Hf. unfold reexport.
  rewrite (using_decl_spec ["boost"; "alignment"] ["detail"; "aligned_alloc"]
             _ fa "aligned_alloc" Ha eq_refl).
  cbn [mbind option_bind macros included symbols app].
  rewrite (using_decl_spec ["boost"; "alignment"] ["detail"; "aligned_free"]
             _ ff "aligned_free");
    [|cbn [symbols app]; by rewrite lookup_insert_ne by discriminate
     |reflexivity].
  cbn [mbind option_bind macros included symbols app].
  rewrite (using_decl_spec ["boost"] ["alignment"; "aligned_alloc"]
             _ fa "aligned_alloc");
    [|cbn [symbols app];
      rewrite lookup_insert_ne by discriminate; apply lookup_insert_eq
     |reflexivity].
  cbn [mbind option_bind macros included symbols app].
  rewrite (using_decl_spec ["boost"] ["alignment"; "aligned_free"]
             _ ff "aligned_free");
    [|cbn [symbols app];
      rewrite lookup_insert_ne by discriminate; apply lookup_insert_eq
     |reflexivity].
  reflexivity.
Qed.

(** The using-declarations succeed only when both [detail] names are
    declared. *)
Lemma reexport_inv (s s' : tu) :
  reexport s = Some s' →
  ∃ fa ff,
    symbols s !! ["boost"; "alignment"; "detail"; "aligned_alloc"] = Some fa
    ∧ symbols s !! ["boost"; "alignment"; "detail"; "aligned_free"] = Some ff.
Proof.
  intros Hrun.
  destruct (symbols s
              !! ["boost"; "alignment"; "detail"; "aligned_alloc"]%string)
    as [fa|] eqn:Ha.
  2:{ exfalso. unfold reexport, using_decl in Hrun. cbn [app] in Hrun.
      rewrite Ha in Hrun. discriminate Hrun. }
  destruct (symbols s
              !! ["boost"; "alignment"; "detail"; "aligned_free"]%string)
    as [ff|] eqn:Hf.
  2:{ exfalso. unfold reexport in Hrun.
      rewrite (using_decl_spec
                 ["boost"; "alignment"]%string
                 ["detail"; "aligned_alloc"]%string
                 _ fa "aligned_alloc"%string Ha eq_refl) in Hrun.
      cbn [mbind option_bind] in Hrun.
      rewrite using_decl_undeclared in Hrun; [discriminate Hrun|].
      cbn [app symbols]. by rewrite lookup_insert_ne by discriminate. }
  eauto.
Qed.

End HeaderEffects.

(** X3: the header defines no macro besides its include guard: after it
    has been read, the macro environment is the one before it with the
    guard defined and then the effect of each header it included, in the
    order of inclusion; with the guard already defined nothing changes. *)
Theorem header_defines_only_guard :
  ∀ (ext : string → gmap string Z → gmap string Z) (s : tu),
    ∃ s', aligned_alloc_hpp ext s = Some s'
          ∧ macros s'
            = if defined (macros s) guard then macros s
              else foldl (λ e h, ext h e) (<[ guard := 1 ]> (macros s))
                     (included_since (length (included s)) s').
Proof.
  intros ext s. destruct (defined (macros s) guard) eqn:Hg.
  - exists s. split; [|reflexivity]. unfold aligned_alloc_hpp. by rewrite Hg.
  - eexists. split; [by apply aligned_alloc_hpp_first|].
    unfold included_since. cbn [macros included].
    destruct (preamble_unfold ext (define guard s)) as [Hinc Hmac].
    cbv zeta in Hinc, Hmac.
    match type of Hinc with
    | _ = (_ ++ ?l)%list => set (pre := l) in *
    end.
    rewrite Hinc, Hmac. cbn [define included macros].
    rewrite <- app_assoc, drop_app_length, foldl_app. reflexivity.
Qed.

(** X4: the order of inclusion on a first read: Boost.Config comes first,
    [unistd.h] follows exactly when [BOOST_HAS_UNISTD_H] is defined once
    Boost.Config has been read, [AvailabilityMacros.h] follows exactly when
    one of the three Apple macros is defined at that point, and the header
    of the selected back-end comes last. *)
Theorem first_read_include_order :
  ∀ (ext : string → gmap string Z → gmap string Z) (s : tu),
    defined (macros s) guard = false →
    ∃ s' b,
      aligned_alloc_hpp ext s = Some s'
      ∧ backend_chain (chain_env ext s) = [detail_header b]
      ∧ included_since (length (included s)) s'
        = (["boost/config.hpp"%string]
           ++ (if defined (ext "boost/config.hpp"%string
                             (<[ guard := 1 ]> (macros s)))
                    "BOOST_HAS_UNISTD_H"
               then ["unistd.h"%string] else [])
           ++ (if apple_platform
                    (if defined (ext "boost/config.hpp"%string
                                   (<[ guard := 1 ]> (macros s)))
                          "BOOST_HAS_UNISTD_H"
                     then ext "unistd.h"%string
                            (ext "boost/config.hpp"%string
                               (<[ guard := 1 ]> (macros s)))
                     else ext "boost/config.hpp"%string
                            (<[ guard := 1 ]> (macros s)))
               then ["AvailabilityMacros.h"%string] else [])
           ++ [detail_header b])%list.
Proof.
  intros ext s Hg.
  eexists; exists (select priority_order (chain_env ext s)).
  split; [by apply aligned_alloc_hpp_first|].
  split; [apply backend_chain_select|].
  unfold included_since. cbn [included].
  destruct (preamble_unfold ext (define guard s)) as [-> _].
  cbv zeta. cbn [define included macros].
  rewrite <- app_assoc, drop_app_length.
  rewrite <- !app_assoc. reflexivity.
Qed.

Lemma first_read_include_order_witness :
  defined (macros fresh_tu) guard = false
  ∧ ∃ s', aligned_alloc_hpp linux_headers fresh_tu = Some s'
          ∧ included s'
            = [ "boost/config.hpp"; "unistd.h";
                "boost/align/detail/aligned_alloc_posix.hpp" ]%string.
Proof.
  split; [reflexivity|].
  destruct (first_read_include_order linux_headers fresh_tu eq_refl)
    as (s' & b & Hrun & Hsel & Hinc).
  assert (Hb : b = Posix).
  { vm_compute in Hsel. destruct b; (reflexivity || discriminate Hsel). }
  subst b. exists s'. split; [exact Hrun|].
  change (included s') with (included_since (length (included fresh_tu)) s').
  rewrite Hinc. vm_compute. reflexivity.
Defined.

(** X6: repeating the using-declarations changes nothing: applied to the
    state they produced, they succeed and give that state back. *)
Theorem reexport_idempotent :
  ∀ s s' : tu, reexport s = Some s' → reexport s' = Some s'.
Proof.
  intros s s' Hrun.
  destruct (reexport_inv s s' Hrun) as (fa & ff & Ha & Hf).
  rewrite (reexport_spec s fa ff Ha Hf) in Hrun. injection Hrun as <-.
  rewrite (reexport_spec _ fa ff);
    [|cbn [symbols]; by rewrite !lookup_insert_ne by discriminate..].
  cbn [macros included symbols]. do 2 f_equal.
  rewrite (insert_id _ ["boost"; "alignment"; "aligned_alloc"]%string fa)
    by lookup_concrete.
  rewrite (insert_id _ ["boost"; "alignment"; "aligned_free"]%string ff)
    by lookup_concrete.
  rewrite (insert_id _ ["boost"; "aligned_alloc"]%string fa)
    by lookup_concrete.
  rewrite (insert_id _ ["boost"; "aligned_free"]%string ff)
    by lookup_concrete.
  reflexivity.
Qed.

Lemma reexport_idempotent_witness :
  ∃ s', reexport {| macros := ∅; included := [];
                    symbols := declare_backend Manual ∅ |} = Some s'
        ∧ reexport s' = Some s'.
Proof.
  eexists. split.
  - apply (reexport_spec _ (Fn Manual AlignedAlloc) (Fn Manual AlignedFree));
      reflexivity.
  - apply (reexport_idempotent {| macros := ∅; included := [];
                                  symbols := declare_backend Manual ∅ |}).
    apply (reexport_spec _ (Fn Manual AlignedAlloc) (Fn Manual AlignedFree));
      reflexivity.
Defined.

(** X7: the selection is made after Boost.Config has been read: when
    Boost.Config defines [BOOST_MSVC] and no header included after it
    undefines it, a first read of the header binds [boost::aligned_alloc]
    and [boost::aligned_free] to the functions of the intrinsic back-end,
    whatever was defined before the header. *)
Theorem selection_sees_boost_config :
  ∀ (ext : string → gmap string Z → gmap string Z) (s : tu),
    defined (macros s) guard = false →
    (∀ e, defined (ext "boost/config.hpp"%string e) "BOOST_MSVC" = true) →
    (∀ h e, defined e "BOOST_MSVC" = true →
            defined (ext h e) "BOOST_MSVC" = true) →
    ∃ s', aligned_alloc_hpp ext s = Some s'
          ∧ symbols s' !! ["boost"; "aligned_alloc"]%string
            = Some (Fn Msvc AlignedAlloc)
          ∧ symbols s' !! ["boost"; "aligned_free"]%string
            = Some (Fn Msvc AlignedFree).
Proof.
  intros ext s Hg Hconfig Hkeep.
  assert (Hmsvc : defined (chain_env ext s) "BOOST_MSVC" = true).
  { unfold chain_env, preamble.
    repeat (match goal with
            | |- context [if ?c then _ else _] => destruct c
            end); cbn [include macros]; auto. }
  assert (Hsel : select priority_order (chain_env ext s) = Msvc).
  { cbn [priority_order select]. unfold windows_family. by rewrite Hmsvc. }
  eexists. split; [by apply aligned_alloc_hpp_first|].
  cbn [symbols]. rewrite Hsel. split; lookup_concrete.
Qed.

Lemma selection_sees_boost_config_witness :
  defined (macros fresh_tu) guard = false
  ∧ ∃ s', aligned_alloc_hpp msvc_headers fresh_tu = Some s'
          ∧ symbols s' !! ["boost"; "aligned_alloc"]%string
            = Some (Fn Msvc AlignedAlloc).
Proof.
  split; [reflexivity|].
  destruct (selection_sees_boost_config msvc_headers fresh_tu eq_refl)
    as (s' & Hrun & Ha & _).
  - intros e. unfold msvc_headers. rewrite decide_True by reflexivity.
    apply defined_insert_eq.
  - intros h e He. unfold msvc_headers. case_decide; [|exact He].
    by apply defined_insert.
  - exists s'. split; [exact Hrun|exact Ha].
Defined.
